(** * AIMI: background code-agent pipeline and project procedures

    A shallow embedding of
    - [src/unnamed/part_002] (inngest/utils.ts: lastAgentTextMessageContent,
      parseAgentOutput),
    - [src/src/inngest/functions.ts] (codeAgentFunction: its steps, tools,
      lifecycle hook and router),
    - [src/src/modules/projects/server/procedures.ts] (projects router),
    - [src/unnamed/part_004] (lib/usage.ts: consumeCredits).

    JavaScript exceptions are modelled by the result type [js]; the
    shared agent state object is threaded explicitly. *)

From stdpp Require Import base gmap strings list pretty.
From Stdlib Require Import String Sorted.

Open Scope string_scope.

(** ** JavaScript values and exceptions *)

Inductive JsError :=
| TypeError (msg : string)
| ErrorObj (msg : string)          (** an [instanceof Error] value *)
| RateLimiterRes (remaining : nat) (** rate-limiter-flexible rejects with a plain object *)
| TRPCError (code : string) (msg : string).

Inductive js (A : Type) :=
| Ok (a : A)
| Throw (e : JsError).
Arguments Ok {A} a.
Arguments Throw {A} e.

Definition js_bind {A B} (m : js A) (k : A -> js B) : js B :=
  match m with Ok a => k a | Throw e => Throw e end.

Notation "'let!' x := m 'in' k" := (js_bind m (fun x => k))
  (at level 200, x name, m at level 100, k at level 200).

(** [String.prototype.includes]. *)
Fixpoint includes (s sub : string) : bool :=
  match s with
  | EmptyString => String.prefix sub s
  | String _ rest => String.prefix sub s || includes rest sub
  end.

(** JavaScript truthiness of a string. *)
Definition truthy (s : string) : bool := negb (String.eqb s "").

(** [Array.prototype.join("")] on strings. *)
Definition join_empty (l : list string) : string := String.concat "" l.

(** ** @inngest/agent-kit messages *)

Inductive Role := RSystem | RUser | RAssistant.

Record TextContent := { tc_type : string; tc_text : string }.

Inductive Content :=
| CStr (s : string)
| CArr (parts : list TextContent).

(** [TextMessage | ToolCallMessage | ToolResultMessage]; a tool call has role
    "assistant" and no [content] field; a tool result has role "tool_result". *)
Inductive Message :=
| TextMessage (role : Role) (content : Content)
| ToolCallMessage (tools : list string)
| ToolResultMessage (tool : string) (content : string).

Definition is_assistant (m : Message) : bool :=
  match m with
  | TextMessage RAssistant _ => true
  | ToolCallMessage _ => true
  | _ => false
  end.

Record AgentResult := { output : list Message }.

(** [Array.prototype.findLastIndex]: [None] plays the role of -1. *)
Fixpoint findLastIndex {A} (p : A -> bool) (l : list A) : option nat :=
  match l with
  | [] => None
  | x :: rest =>
      match findLastIndex p rest with
      | Some i => Some (S i)
      | None => if p x then Some 0 else None
      end
  end.

(** ** inngest/utils.ts *)

(** [lastAgentTextMessageContent]: [message?.content ? ... : undefined].
    A tool call message has no [content] (undefined, falsy); an empty
    string is falsy; an array (even empty) is truthy. *)
Definition lastAgentTextMessageContent (result : AgentResult) : option string :=
  match findLastIndex is_assistant (output result) with
  | None => None                                  (* result.output[-1] *)
  | Some i =>
      match output result !! i with
      | Some (TextMessage _ (CStr s)) => if truthy s then Some s else None
      | Some (TextMessage _ (CArr cs)) => Some (join_empty (map tc_text cs))
      | _ => None
      end
  end.

(** [String(obj)] of a plain object, as used by [join]. *)
Definition object_to_string : string := "[object Object]".

(** [parseAgentOutput]: [value[0]] of an empty array is [undefined], and
    [undefined.type] throws a TypeError. [output.content.map((txt) => txt)]
    keeps the TextContent objects, which [join("")] stringifies. *)
Definition parseAgentOutput (value : list Message) : js string :=
  match value !! 0 with
  | None => Throw (TypeError "Cannot read properties of undefined (reading 'type')")
  | Some (TextMessage _ (CArr parts)) =>
      Ok (join_empty (map (fun _ : TextContent => object_to_string) parts))
  | Some (TextMessage _ (CStr s)) => Ok s
  | Some _ => Ok "Fragment"
  end.

(** ** inngest/functions.ts: agent state, lifecycle hook, router *)

Record AgentState := { summary : string; files : gmap string string }.

Definition initial_state : AgentState := {| summary := ""; files := ∅ |}.

Definition set_summary (s : string) (st : AgentState) : AgentState :=
  {| summary := s; files := files st |}.

Definition set_files (fs : gmap string string) (st : AgentState) : AgentState :=
  {| summary := summary st; files := fs |}.

(** [lifecycle.onResponse]; the network is always present inside
    [network.run]. Returns the result and the updated shared state. *)
Definition onResponse (result : AgentResult) (st : AgentState) : AgentResult * AgentState :=
  match lastAgentTextMessageContent result with
  | Some text =>
      if truthy text then
        if includes text "<task_summary>" then (result, set_summary text st)
        else (result, st)
      else (result, st)
  | None => (result, st)
  end.

Inductive AgentName := CodeAgent.

(** The network's [router]: [if (summary) return;] else the coding agent. *)
Definition router (st : AgentState) : option AgentName :=
  if truthy (summary st) then None else Some CodeAgent.

Definition maxIter : nat := 15.

(** The agent-kit network loop ([network.run]) as [createNetwork] is
    configured here: before each agent call the router is consulted and
    [undefined] halts; at most [maxIter] agent calls are made.
    [agent_run] is one call of the coding agent (model inference, its tool
    calls and the [onResponse] hook) acting on the shared state. Returns the
    final state and the number of agent calls made. *)
Fixpoint network_loop (agent_run : AgentState -> AgentState) (iters : nat)
    (st : AgentState) : AgentState * nat :=
  match iters with
  | 0 => (st, 0)
  | S n =>
      match router st with
      | None => (st, 0)
      | Some CodeAgent =>
          let '(st', k) := network_loop agent_run n (agent_run st) in (st', S k)
      end
  end.

Definition network_run (agent_run : AgentState -> AgentState) (st : AgentState)
    : AgentState * nat :=
  network_loop agent_run maxIter st.

(** ** The createOrUpdateFiles tool *)

Record FileInput := { path : string; content : string }.

(** The E2B sandbox as the tools see it: [getSandbox] fails when the
    sandbox cannot be reached, [files.write] fails on a read-only path. *)
Record Sandbox := {
  sb_alive : bool;
  sb_files : gmap string string;
  sb_readonly : list string
}.

Definition getSandbox (sb : Sandbox) : js Sandbox :=
  if sb_alive sb then Ok sb else Throw (ErrorObj "sandbox not found").

Definition sandbox_write (sb : Sandbox) (p c : string) : js Sandbox :=
  if bool_decide (p ∈ sb_readonly sb) then Throw (ErrorObj "permission denied")
  else Ok {| sb_alive := sb_alive sb; sb_files := <[p:=c]> (sb_files sb);
             sb_readonly := sb_readonly sb |}.

Definition error_to_string (e : JsError) : string :=
  match e with
  | TypeError m => "TypeError: " ++ m
  | ErrorObj m => "Error: " ++ m
  | RateLimiterRes _ => "[object Object]"
  | TRPCError _ m => "TRPCError: " ++ m
  end.

(** The value returned by the [step.run("createOrUpdateFiles")] callback. *)
Inductive StepValue :=
| StepObject (m : gmap string string)
| StepString (s : string).

(** [for (const file of files) { await sandbox.files.write(...);
    updatedFiles[file.path] = file.content; }] : returns the sandbox, the
    mutated map, and the exception that left the loop, if any. *)
Fixpoint write_each (sb : Sandbox) (updatedFiles : gmap string string)
    (fs : list FileInput) : Sandbox * gmap string string * option JsError :=
  match fs with
  | [] => (sb, updatedFiles, None)
  | f :: rest =>
      match sandbox_write sb (path f) (content f) with
      | Throw e => (sb, updatedFiles, Some e)
      | Ok sb' => write_each sb' (<[path f := content f]> updatedFiles) rest
      end
  end.

(** The [createOrUpdateFiles] handler. The callback writes the files one
    by one; inside it [updatedFiles] is the object
    [network.state.data.files] (never undefined: it starts as [{}]). The
    callback runs inside [step.run], whose returned value Inngest saves;
    the function is then replayed and the step hands back the saved value
    without running the callback again. So the handler's state after the
    step is decided by that value alone: on success it stores the returned
    file object back into the state; on failure the saved value is the
    error string and the state keeps its previous files (the writes into
    [updatedFiles] belonged to the discarded invocation). The sandbox is an
    outside system, and the writes made to it before the failure stay.
    Returns the sandbox, the shared state and the step's value. *)
Definition createOrUpdateFiles (fs : list FileInput) (sb : Sandbox) (st : AgentState)
    : Sandbox * AgentState * StepValue :=
  let updatedFiles := files st in
  let '(sb', newFiles) :=
    match getSandbox sb with
    | Throw e => (sb, StepString ("Error: " ++ error_to_string e))
    | Ok sb0 =>
        match write_each sb0 updatedFiles fs with
        | (sb', _, Some e) => (sb', StepString ("Error: " ++ error_to_string e))
        | (sb', upd, None) => (sb', StepObject upd)
        end
    end in
  match newFiles with
  | StepObject m => (sb', set_files m st, newFiles)    (* typeof newFiles === "object" *)
  | StepString _ => (sb', st, newFiles)
  end.

(** The content the last entry of [fs] with path [p] carries. *)
Fixpoint new_content (fs : list FileInput) (p : string) : option string :=
  match fs with
  | [] => None
  | f :: rest =>
      match new_content rest p with
      | Some c => Some c
      | None => if String.eqb (path f) p then Some (content f) else None
      end
  end.

(** ** Prisma rows used by the pipeline *)

Inductive MessageRole := USER | ASSISTANT.
Inductive MessageType := RESULT | ERROR.

Record DbMessage := {
  msg_id : nat;
  msg_projectId : string;
  msg_content : string;
  msg_role : MessageRole;
  msg_type : MessageType;
  msg_createdAt : nat
}.

(** [orderBy: { createdAt: "desc" }]: insertion into a list sorted by
    decreasing [createdAt]. *)
Fixpoint insert_desc (m : DbMessage) (l : list DbMessage) : list DbMessage :=
  match l with
  | [] => [m]
  | x :: rest =>
      if Nat.ltb (msg_createdAt x) (msg_createdAt m) then m :: x :: rest
      else x :: insert_desc m rest
  end.

Definition sort_desc (l : list DbMessage) : list DbMessage :=
  fold_right insert_desc [] l.

(** [prisma.message.findMany({ where: { projectId }, orderBy: { createdAt:
    "desc" }, take: 5 })]. *)
Definition findMany_recent (db : list DbMessage) (projectId : string) : list DbMessage :=
  take 5 (sort_desc (List.filter (fun m => String.eqb (msg_projectId m) projectId) db)).

(** [{ type: "text", role: message.role === "ASSISTANT" ? "assistant" :
    "user", content: message.content }] *)
Definition toAgentMessage (m : DbMessage) : Message :=
  TextMessage (match msg_role m with ASSISTANT => RAssistant | USER => RUser end)
              (CStr (msg_content m)).

(** The [get-previous-messages] step: push each row, then [reverse()]. *)
Definition getPreviousMessages (db : list DbMessage) (projectId : string) : list Message :=
  rev (map toAgentMessage (findMany_recent db projectId)).

Definition message_role (m : Message) : option Role :=
  match m with TextMessage r _ => Some r | _ => None end.

(** ** The codeAgentFunction pipeline *)

Record Fragment := {
  sandboxUrl : string;
  title : string;
  fragment_files : gmap string string
}.

(** The [data] of a [prisma.message.create] call. *)
Record MessageCreate := {
  mc_projectId : string;
  mc_content : string;
  mc_role : MessageRole;
  mc_type : MessageType;
  mc_fragment : option Fragment
}.

(** The [save-result] step. The JS object literal evaluates [content]
    before [fragment.create.title]. *)
Definition save_result (projectId : string) (isError : bool)
    (responseOutput fragmentTitleOutput : list Message) (url : string)
    (fs : gmap string string) : js MessageCreate :=
  if isError then
    Ok {| mc_projectId := projectId;
          mc_content := "Something went wrong. Please try again.";
          mc_role := ASSISTANT; mc_type := ERROR; mc_fragment := None |}
  else
    let! c := parseAgentOutput responseOutput in
    let! t := parseAgentOutput fragmentTitleOutput in
    Ok {| mc_projectId := projectId; mc_content := c; mc_role := ASSISTANT;
          mc_type := RESULT;
          mc_fragment := Some {| sandboxUrl := url; title := t; fragment_files := fs |} |}.

(** The observable effects of one run, in order. *)
Inductive Effect :=
| SandboxCreate
| LoadHistory (projectId : string)
| NetworkRun (prompt : string)
| RunTitleGenerator (input : string)
| RunResponseGenerator (input : string)
| GetSandboxUrl
| CreateMessage (m : MessageCreate).

(** The external services a run talks to: the coding agent's effect on the
    shared state per call, the two single-shot generators' outputs for a
    given input, and the sandbox's host for port 3000. *)
Record Env := {
  agent_run : AgentState -> AgentState;
  title_llm : string -> list Message;
  response_llm : string -> list Message;
  sandbox_host : string
}.

Record CodeAgentEvent := { ev_value : string; ev_projectId : string }.

(** [codeAgentFunction]: returns the effects and the run's outcome (the
    [save-result] step's exception, if any). *)
Definition codeAgentFunction (env : Env) (event : CodeAgentEvent)
    : list Effect * js unit :=
  let '(final, _) := network_run (agent_run env) initial_state in
  let fragmentTitleOutput := title_llm env (summary final) in
  let responseOutput := response_llm env (summary final) in
  let isError := negb (truthy (summary final)) || Nat.eqb (size (files final)) 0 in
  let url := "https://" ++ sandbox_host env in
  let steps :=
    [SandboxCreate; LoadHistory (ev_projectId event); NetworkRun (ev_value event);
     RunTitleGenerator (summary final); RunResponseGenerator (summary final);
     GetSandboxUrl] in
  match save_result (ev_projectId event) isError responseOutput fragmentTitleOutput
          url (files final) with
  | Ok m => ((steps ++ [CreateMessage m])%list, Ok tt)
  | Throw e => (steps, Throw e)
  end.

(** ** lib/usage.ts and the projects router *)

Record Project := {
  p_id : string;
  p_userId : string;
  p_name : string;
  p_updatedAt : nat
}.

Record SentEvent := { se_name : string; se_data : CodeAgentEvent }.

(** The order of the writes and sends a procedure performs. *)
Inductive Op :=
| OpConsume (userId : string)
| OpCreateProject (projectId : string)
| OpSendEvent (name : string).

(** The database tables ([Project], [Message], [Usage]), the events sent
    to Inngest, and the operation log. [w_usage] maps a user id to the
    points consumed in the current 30-day window; [w_usage_up] is false
    when the usage store cannot be reached. *)
Record World := {
  w_projects : list Project;
  w_messages : list DbMessage;
  w_events : list SentEvent;
  w_usage : gmap string nat;
  w_usage_up : bool;
  w_next : nat;
  w_clock : nat;
  w_log : list Op
}.

(** The Clerk session of the caller. *)
Record Caller := { userId : string; has_pro : bool }.

Definition FREE_POINTS : nat := 5.
Definition PRO_POINTS : nat := 100.
Definition GENERATION_COST : nat := 1.

Definition getUsageTracker_points (c : Caller) : nat :=
  if has_pro c then PRO_POINTS else FREE_POINTS.

Definition set_usage (u : gmap string nat) (w : World) : World :=
  {| w_projects := w_projects w; w_messages := w_messages w; w_events := w_events w;
     w_usage := u; w_usage_up := w_usage_up w; w_next := w_next w;
     w_clock := w_clock w; w_log := w_log w |}.

Definition log_op (o : Op) (w : World) : World :=
  {| w_projects := w_projects w; w_messages := w_messages w; w_events := w_events w;
     w_usage := w_usage w; w_usage_up := w_usage_up w; w_next := w_next w;
     w_clock := w_clock w; w_log := (w_log w ++ [o])%list |}.

(** [RateLimiterPrisma.consume(key, points)]: the store adds the points
    first and then rejects (with a plain [RateLimiterRes], not an Error)
    when the consumed total exceeds the limit; a store failure rejects
    with an Error. *)
Definition usage_consume (limit : nat) (key : string) (cost : nat) (w : World) : js nat * World :=
  if w_usage_up w then
    let consumed := default 0 (w_usage w !! key) + cost in
    let w' := set_usage (<[key := consumed]> (w_usage w)) w in
    if Nat.leb consumed limit then (Ok (limit - consumed), w')
    else (Throw (RateLimiterRes 0), w')
  else (Throw (ErrorObj "usage store unavailable"), w).

(** [consumeCredits]: [auth()] gives the caller's session. *)
Definition consumeCredits (caller : option Caller) (w : World) : js nat * World :=
  match caller with
  | None => (Throw (ErrorObj "User not authenticated"), w)
  | Some c =>
      usage_consume (getUsageTracker_points c) (userId c) GENERATION_COST
        (log_op (OpConsume (userId c)) w)
  end.

(** [error instanceof Error] *)
Definition is_error_instance (e : JsError) : bool :=
  match e with RateLimiterRes _ => false | _ => true end.

(** The number of UTF-16 code units a leading byte of a UTF-8 sequence
    stands for: one for the sequences of 1 to 3 bytes (code points below
    U+10000, lone surrogates in their 3-byte form included), two for the
    4-byte sequences (a surrogate pair); continuation bytes [10xxxxxx]
    count nothing. *)
Definition utf16_units (b : Ascii.ascii) : nat :=
  let n := Ascii.nat_of_ascii b in
  if Nat.ltb n 128 then 1
  else if Nat.ltb n 192 then 0
  else if Nat.ltb n 240 then 1
  else 2.

(** A JS string is held as its UTF-8 bytes; [utf16_length] is the JS
    [.length] zod's [min] and [max] compare, in UTF-16 code units. *)
Fixpoint utf16_length (s : string) : nat :=
  match s with
  | EmptyString => 0
  | String b rest => utf16_units b + utf16_length rest
  end.

(** [protectedProcedure] together with the zod input schema
    [z.string().min(1).max(10000)]. *)
Definition protected_input (caller : option Caller) (value : string) : js Caller :=
  match caller with
  | None => Throw (TRPCError "UNAUTHORIZED" "Not authenticated")
  | Some c =>
      if Nat.leb 1 (utf16_length value) && Nat.leb (utf16_length value) 10000
      then Ok c
      else Throw (TRPCError "BAD_REQUEST" "invalid input")
  end.

(** [prisma.project.create] with the nested initial message. *)
Definition project_create (c : Caller) (name value : string) (w : World) : Project * World :=
  let pid := pretty (w_next w) in
  let p := {| p_id := pid; p_userId := userId c; p_name := name;
              p_updatedAt := w_clock w |} in
  let m := {| msg_id := S (w_next w); msg_projectId := pid; msg_content := value;
              msg_role := USER; msg_type := RESULT; msg_createdAt := w_clock w |} in
  (p, {| w_projects := (w_projects w ++ [p])%list;
         w_messages := (w_messages w ++ [m])%list;
         w_events := w_events w; w_usage := w_usage w; w_usage_up := w_usage_up w;
         w_next := S (S (w_next w)); w_clock := S (w_clock w);
         w_log := (w_log w ++ [OpCreateProject pid])%list |}).

(** [inngest.send] *)
Definition inngest_send (e : SentEvent) (w : World) : World :=
  {| w_projects := w_projects w; w_messages := w_messages w;
     w_events := (w_events w ++ [e])%list; w_usage := w_usage w;
     w_usage_up := w_usage_up w; w_next := w_next w; w_clock := w_clock w;
     w_log := (w_log w ++ [OpSendEvent (se_name e)])%list |}.

(** [projects.create]; [name] is the value [generateSlug(2, ...)] drew. *)
Definition create (caller : option Caller) (value name : string) (w : World)
    : js Project * World :=
  match protected_input caller value with
  | Throw e => (Throw e, w)
  | Ok c =>
      match consumeCredits (Some c) w with
      | (Throw err, w1) =>
          if is_error_instance err
          then (Throw (TRPCError "BAD_REQUEST" "Something went wrong"), w1)
          else (Throw (TRPCError "TOO_MANY_REQUESTS" "You have run out of credits"), w1)
      | (Ok _, w1) =>
          let '(createdProject, w2) := project_create c name value w1 in
          let w3 := inngest_send {| se_name := "code-agent/run";
                                    se_data := {| ev_value := value;
                                                  ev_projectId := p_id createdProject |} |} w2 in
          (Ok createdProject, w3)
      end
  end.

(** [prisma.project.findUnique({ where: { id, userId } })] *)
Definition findUnique_project (ps : list Project) (id uid : string) : option Project :=
  List.find (fun p => String.eqb (p_id p) id && String.eqb (p_userId p) uid) ps.

(** [projects.getOne] for an authenticated caller: the zod schema
    [z.string().min(1)] rejects an empty [id] with BAD_REQUEST before the
    query runs. *)
Definition getOne (c : Caller) (id : string) (w : World) : js Project :=
  if Nat.ltb (utf16_length id) 1 then Throw (TRPCError "BAD_REQUEST" "ID is required")
  else
    match findUnique_project (w_projects w) id (userId c) with
    | None => Throw (TRPCError "NOT_FOUND" "Project not found")
    | Some p => Ok p
    end.

(** [orderBy: { updatedAt: "asc" }] *)
Fixpoint insert_asc (p : Project) (l : list Project) : list Project :=
  match l with
  | [] => [p]
  | x :: rest =>
      if Nat.leb (p_updatedAt p) (p_updatedAt x) then p :: x :: rest
      else x :: insert_asc p rest
  end.

(** [projects.getMany] *)
Definition getMany (c : Caller) (w : World) : list Project :=
  fold_right insert_asc [] (List.filter (fun p => String.eqb (p_userId p) (userId c)) (w_projects w)).

(** * Properties *)

(** ** Small facts about the embedding *)

Lemma truthy_false_iff (s : string) : truthy s = false <-> s = "".
Proof.
  unfold truthy. destruct (String.eqb_spec s "") as [-> | Hne]; simpl; split; congruence.
Qed.

Lemma truthy_true_iff (s : string) : truthy s = true <-> s <> "".
Proof.
  unfold truthy. destruct (String.eqb_spec s ""); simpl; split; congruence.
Qed.

Lemma findLastIndex_none {A} (p : A -> bool) (l : list A) :
  forallb (fun x => negb (p x)) l = true -> findLastIndex p l = None.
Proof.
  induction l as [|x l IH]; simpl; [done|].
  intros [Hx Hl]%andb_true_iff. rewrite IH by done.
  destruct (p x); simpl in *; congruence.
Qed.

Lemma findLastIndex_middle {A} (p : A -> bool) (pre post : list A) (x : A) :
  p x = true -> forallb (fun y => negb (p y)) post = true ->
  findLastIndex p (pre ++ x :: post)%list = Some (List.length pre).
Proof.
  intros Hx Hpost. induction pre as [|y pre IH]; simpl.
  - rewrite findLastIndex_none by done. by rewrite Hx.
  - by rewrite IH.
Qed.

(** When the last assistant message is a text message, [onResponse]
    stores its content exactly when it carries the marker. *)
Lemma onResponse_last_text (pre post : list Message) (c : Content) (st : AgentState) :
  forallb (fun m => negb (is_assistant m)) post = true ->
  let res := {| output := (pre ++ TextMessage RAssistant c :: post)%list |} in
  let text := match c with CStr s => s | CArr cs => join_empty (map tc_text cs) end in
  onResponse res st =
    (res, if includes text "<task_summary>" then set_summary text st else st).
Proof.
  intros Hpost res text. unfold onResponse, lastAgentTextMessageContent. simpl.
  rewrite (findLastIndex_middle is_assistant pre post (TextMessage RAssistant c) eq_refl Hpost).
  rewrite list_lookup_middle by done.
  subst res text. destruct c as [s | cs].
  - destruct (truthy s) eqn:Ht.
    + rewrite Ht. by destruct (includes s _).
    + apply truthy_false_iff in Ht. subst s. reflexivity.
  - destruct (truthy (join_empty (map tc_text cs))) eqn:Ht.
    + by destruct (includes _ _).
    + apply truthy_false_iff in Ht. rewrite Ht. reflexivity.
Qed.

Lemma onResponse_result (res : AgentResult) (st : AgentState) :
  fst (onResponse res st) = res.
Proof.
  unfold onResponse.
  destruct (lastAgentTextMessageContent res) as [t|]; [|done].
  destruct (truthy t); [|done]. by destruct (includes t _).
Qed.

(** ** C10 *)

(** C10 (code_bug): [parseAgentOutput] is documented to default to
    "Fragment", but on the empty message list it reads [.type] of
    [undefined] and throws a TypeError instead of returning a string. *)
Theorem parseAgentOutput_empty_throws :
  parseAgentOutput [] =
    Throw (TypeError "Cannot read properties of undefined (reading 'type')").
Proof. reflexivity. Qed.

(** ** C6 *)

(** An agent response holding a summary text followed by a tool call, as
    the OpenAI adapter emits when the model both answers and calls a tool. *)
Definition summary_then_tool_call : AgentResult :=
  {| output := [TextMessage RAssistant (CStr "<task_summary>Built the page</task_summary>");
                ToolCallMessage ["terminal"]] |}.

(** C6 (code_bug): the last assistant text message of
    [summary_then_tool_call] carries the marker, yet [onResponse] leaves the
    summary empty, because [lastAgentTextMessageContent] picks the last
    assistant message of any type (here the tool call, which has no
    content). *)
Theorem onResponse_misses_summary_before_tool_call :
  onResponse summary_then_tool_call initial_state = (summary_then_tool_call, initial_state)
  /\ includes "<task_summary>Built the page</task_summary>" "<task_summary>" = true.
Proof. split; reflexivity. Qed.

(** ** C4 *)

Lemma router_spec (s : AgentState) :
  (router s = None <-> summary s <> "") /\
  (summary s = "" -> router s = Some CodeAgent).
Proof.
  unfold router. split.
  - rewrite <- truthy_true_iff. destruct (truthy (summary s)); split; congruence.
  - intros H. apply truthy_false_iff in H. by rewrite H.
Qed.

Lemma network_loop_bound (f : AgentState -> AgentState) (n : nat) (st : AgentState) :
  (snd (network_loop f n st) <= n)%nat /\
  ((snd (network_loop f n st) < n)%nat -> router (fst (network_loop f n st)) = None).
Proof.
  revert st. induction n as [|n IH]; intros st; simpl; [split; [lia | intros; lia]|].
  destruct (router st) as [[]|] eqn:Hr.
  - destruct (network_loop f n (f st)) as [st' k] eqn:He. simpl.
    specialize (IH (f st)). rewrite He in IH. simpl in IH.
    destruct IH as [IH1 IH2]. split; [lia|]. intros Hk. apply IH2. lia.
  - simpl. split; [lia|done].
Qed.

(** C4: the network loop makes at most [maxIter] = 15 coding-agent calls,
    whatever the agent does; the router halts exactly when the summary is
    non-empty and picks the coding agent otherwise; and a run that made
    fewer than 15 calls ended because the router halted. *)
Theorem network_terminates (agent : AgentState -> AgentState) (st : AgentState) :
  (snd (network_run agent st) <= 15)%nat /\
  (forall s, router s = None <-> summary s <> "") /\
  (forall s, summary s = "" -> router s = Some CodeAgent) /\
  ((snd (network_run agent st) < 15)%nat -> router (fst (network_run agent st)) = None).
Proof.
  destruct (network_loop_bound agent maxIter st) as [H1 H2].
  split; [exact H1|]. split; [intros s; apply router_spec|].
  split; [intros s; apply router_spec|exact H2].
Qed.

(** ** C5 *)

Lemma write_each_ok (fs : list FileInput) :
  forall sb upd sb' upd',
  write_each sb upd fs = (sb', upd', None) ->
  forall p,
    sb_files sb' !! p =
      match new_content fs p with Some c => Some c | None => sb_files sb !! p end /\
    upd' !! p =
      match new_content fs p with Some c => Some c | None => upd !! p end.
Proof.
  induction fs as [|f rest IH]; intros sb upd sb' upd' Hw p; simpl in *.
  - injection Hw as <- <-. done.
  - unfold sandbox_write in Hw. case_bool_decide; [discriminate|].
    destruct (IH _ _ _ _ Hw p) as [Hsb Hupd]; simpl in Hsb.
    rewrite Hsb, Hupd.
    destruct (new_content rest p); [done|].
    destruct (String.eqb_spec (path f) p) as [<- | Hne].
    + by rewrite !lookup_insert_eq.
    + by rewrite !lookup_insert_ne.
Qed.

(** C5: when the [createOrUpdateFiles] step succeeds (returns the file
    object), every listed file has been written to the sandbox and the
    shared file map holds, for each listed path, the content of the last
    entry for that path (the one written last); every other path keeps its
    previous content, in the sandbox and in the file map alike, and the
    summary is untouched. *)
Theorem createOrUpdateFiles_frame (fs : list FileInput) (sb : Sandbox) (st : AgentState)
    (sb' : Sandbox) (st' : AgentState) (m : gmap string string) :
  createOrUpdateFiles fs sb st = (sb', st', StepObject m) ->
  (forall p,
     sb_files sb' !! p =
       match new_content fs p with Some c => Some c | None => sb_files sb !! p end) /\
  (forall p,
     files st' !! p =
       match new_content fs p with Some c => Some c | None => files st !! p end) /\
  summary st' = summary st.
Proof.
  unfold createOrUpdateFiles, getSandbox.
  destruct (sb_alive sb) eqn:Halive; [|discriminate].
  destruct (write_each sb (files st) fs) as [[sb1 upd] [e|]] eqn:Hw; [discriminate|].
  intros Heq. injection Heq as <- <- <-.
  split; [|split]; [intros p; apply (write_each_ok fs _ _ _ _ Hw p)..|done].
Qed.

Definition demo_sandbox : Sandbox :=
  {| sb_alive := true; sb_files := {["package.json" := "{}"]}; sb_readonly := [] |}.

Definition demo_state : AgentState :=
  {| summary := ""; files := {["app/page.tsx" := "old"; "app/layout.tsx" := "layout"]} |}.

Definition demo_files : list FileInput :=
  [{| path := "app/page.tsx"; content := "v1" |};
   {| path := "app/button.tsx"; content := "btn" |};
   {| path := "app/page.tsx"; content := "v2" |}].

Definition demo_write := createOrUpdateFiles demo_files demo_sandbox demo_state.

Lemma createOrUpdateFiles_frame_witness :
  demo_write = (fst (fst demo_write), snd (fst demo_write),
                StepObject (files (snd (fst demo_write)))) /\
  ((forall p,
     sb_files (fst (fst demo_write)) !! p =
       match new_content demo_files p with
       | Some c => Some c | None => sb_files demo_sandbox !! p end) /\
   (forall p,
     files (snd (fst demo_write)) !! p =
       match new_content demo_files p with
       | Some c => Some c | None => files demo_state !! p end) /\
   summary (snd (fst demo_write)) = summary demo_state).
Proof.
  split; [vm_compute; reflexivity|].
  apply (createOrUpdateFiles_frame demo_files demo_sandbox demo_state
           (fst (fst demo_write)) (snd (fst demo_write)) (files (snd (fst demo_write)))).
  vm_compute. reflexivity.
Defined.

(** ** C1 and C7: the run's effects *)

Definition error_message (projectId : string) : MessageCreate :=
  {| mc_projectId := projectId;
     mc_content := "Something went wrong. Please try again.";
     mc_role := ASSISTANT; mc_type := ERROR; mc_fragment := None |}.

Definition run_steps (env : Env) (ev : CodeAgentEvent) : list Effect :=
  let s := summary (fst (network_run (agent_run env) initial_state)) in
  [SandboxCreate; LoadHistory (ev_projectId ev); NetworkRun (ev_value ev);
   RunTitleGenerator s; RunResponseGenerator s; GetSandboxUrl].

(** A run whose final state has no summary or no files persists exactly
    the error message. *)
Lemma codeAgentFunction_error_path (env : Env) (ev : CodeAgentEvent) :
  let final := fst (network_run (agent_run env) initial_state) in
  summary final = "" \/ size (files final) = 0%nat ->
  codeAgentFunction env ev =
    ((run_steps env ev ++ [CreateMessage (error_message (ev_projectId ev))])%list, Ok tt).
Proof.
  intros final Hcase. unfold codeAgentFunction, run_steps.
  subst final. destruct (network_run (agent_run env) initial_state) as [fin k]. simpl in *.
  replace (negb (truthy (summary fin)) || Nat.eqb (size (files fin)) 0) with true.
  - reflexivity.
  - destruct Hcase as [H | H].
    + apply truthy_false_iff in H. by rewrite H.
    + rewrite H. by rewrite orb_true_r.
Qed.

(** A run with a summary and files persists exactly one RESULT message
    with the fragment, provided both generator outputs parse. *)
Lemma codeAgentFunction_result_path (env : Env) (ev : CodeAgentEvent) (c t : string) :
  let final := fst (network_run (agent_run env) initial_state) in
  summary final <> "" -> size (files final) <> 0%nat ->
  parseAgentOutput (response_llm env (summary final)) = Ok c ->
  parseAgentOutput (title_llm env (summary final)) = Ok t ->
  codeAgentFunction env ev =
    ((run_steps env ev ++
      [CreateMessage {| mc_projectId := ev_projectId ev; mc_content := c;
                        mc_role := ASSISTANT; mc_type := RESULT;
                        mc_fragment := Some {| sandboxUrl := "https://" ++ sandbox_host env;
                                               title := t; fragment_files := files final |} |}])%list,
     Ok tt).
Proof.
  intros final Hs Hf Hc Ht. unfold codeAgentFunction, run_steps.
  subst final. destruct (network_run (agent_run env) initial_state) as [fin k]. simpl in *.
  apply truthy_true_iff in Hs. rewrite Hs. apply Nat.eqb_neq in Hf. rewrite Hf. simpl.
  unfold save_result. simpl. rewrite Hc. simpl. rewrite Ht. reflexivity.
Qed.

Definition demo_event : CodeAgentEvent :=
  {| ev_value := "Build a landing page"; ev_projectId := "p1" |}.

Definition demo_summary : string := "<task_summary>Built a landing page</task_summary>".

(** The response generator answered with no message at all. *)
Definition env_empty_response : Env :=
  {| agent_run := fun st =>
       {| summary := demo_summary;
          files := <["app/page.tsx" := "export default function Page() {}"]> (files st) |};
     title_llm := fun _ => [TextMessage RAssistant (CStr "Landing page")];
     response_llm := fun _ => [];
     sandbox_host := "3000-sbx.e2b.app" |}.

(** C1 (code_bug): a run whose loop ended with a summary and a file, but
    whose response generator produced an empty output, persists no message
    at all: the [save-result] step throws the TypeError of
    [parseAgentOutput []] (the defect of C10). *)
Theorem save_result_empty_response_persists_nothing :
  codeAgentFunction env_empty_response demo_event =
    ([SandboxCreate; LoadHistory "p1"; NetworkRun "Build a landing page";
      RunTitleGenerator demo_summary; RunResponseGenerator demo_summary; GetSandboxUrl],
     Throw (TypeError "Cannot read properties of undefined (reading 'type')")).
Proof. vm_compute. reflexivity. Qed.

(** The coding agent never writes a summary. *)
Definition env_no_summary : Env :=
  {| agent_run := fun st => st;
     title_llm := fun _ => [TextMessage RAssistant (CStr "Untitled")];
     response_llm := fun _ => [TextMessage RAssistant (CStr "Done")];
     sandbox_host := "3000-sbx.e2b.app" |}.

(** C7 (counterexample): the loop of [env_no_summary] ends with an empty
    summary, and both generators are still invoked (on the empty summary). *)
Lemma generators_run_without_summary :
  summary (fst (network_run (agent_run env_no_summary) initial_state)) = "" /\
  In (RunTitleGenerator "") (fst (codeAgentFunction env_no_summary demo_event)) /\
  In (RunResponseGenerator "") (fst (codeAgentFunction env_no_summary demo_event)).
Proof.
  split; [vm_compute; reflexivity|].
  split; vm_compute.
  - right; right; right; left; reflexivity.
  - right; right; right; right; left; reflexivity.
Qed.

(** C7 (amended): on every run, whether or not the final summary is empty,
    the title generator and the response generator are each invoked exactly
    once, one after the other, after the agent loop has ended and before the
    sandbox URL is fetched and the result saved, both on the final summary. *)
Theorem generators_run_once_after_loop (env : Env) (ev : CodeAgentEvent) :
  let s := summary (fst (network_run (agent_run env) initial_state)) in
  exists rest,
    fst (codeAgentFunction env ev) =
      ([SandboxCreate; LoadHistory (ev_projectId ev); NetworkRun (ev_value ev);
        RunTitleGenerator s; RunResponseGenerator s; GetSandboxUrl] ++ rest)%list /\
    Forall (fun e => match e with
                     | RunTitleGenerator _ | RunResponseGenerator _ | NetworkRun _ => False
                     | _ => True end) rest.
Proof.
  intros s. subst s. unfold codeAgentFunction.
  destruct (network_run (agent_run env) initial_state) as [fin k]. simpl.
  destruct (save_result _ _ _ _ _ _) as [m | e].
  - eexists. split; [reflexivity|]. repeat constructor.
  - exists []. split; [reflexivity|]. constructor.
Qed.

(** ** C8 *)

Definition newer_or_same (a b : DbMessage) : Prop := msg_createdAt b <= msg_createdAt a.
Definition older_or_same (a b : DbMessage) : Prop := msg_createdAt a <= msg_createdAt b.

Lemma insert_desc_perm (m : DbMessage) (l : list DbMessage) :
  Permutation (insert_desc m l) (m :: l).
Proof.
  induction l as [|x l IH]; simpl; [done|].
  destruct (Nat.ltb (msg_createdAt x) (msg_createdAt m)); [done|].
  rewrite IH. apply perm_swap.
Qed.

Lemma sort_desc_perm (l : list DbMessage) : Permutation (sort_desc l) l.
Proof.
  induction l as [|x l IH]; simpl; [done|].
  rewrite insert_desc_perm. by apply perm_skip.
Qed.

Lemma insert_desc_sorted (m : DbMessage) (l : list DbMessage) :
  Sorted newer_or_same l -> Sorted newer_or_same (insert_desc m l).
Proof.
  induction 1 as [|x l Hl IH Hhd]; simpl.
  - repeat constructor.
  - destruct (Nat.ltb (msg_createdAt x) (msg_createdAt m)) eqn:Hlt.
    + apply Nat.ltb_lt in Hlt. constructor; [by constructor|].
      constructor. unfold newer_or_same. lia.
    + apply Nat.ltb_ge in Hlt. constructor; [exact IH|].
      destruct l as [|y l]; simpl.
      * constructor. unfold newer_or_same. lia.
      * inversion Hhd; subst.
        destruct (Nat.ltb (msg_createdAt y) (msg_createdAt m)); constructor;
          unfold newer_or_same in *; lia.
Qed.

Lemma sort_desc_sorted (l : list DbMessage) : StronglySorted newer_or_same (sort_desc l).
Proof.
  apply Sorted_StronglySorted.
  - intros a b c; unfold newer_or_same; lia.
  - induction l as [|x l IH]; simpl; [constructor|]. by apply insert_desc_sorted.
Qed.

Lemma StronglySorted_app_inv {A} (R : A -> A -> Prop) (l1 l2 : list A) :
  StronglySorted R (l1 ++ l2) ->
  StronglySorted R l1 /\ (forall a b, In a l1 -> In b l2 -> R a b).
Proof.
  induction l1 as [|x l1 IH]; simpl; intros H.
  - split; [constructor|done].
  - apply StronglySorted_inv in H as [H Hx].
    destruct (IH H) as [H1 H12]. rewrite List.Forall_forall in Hx.
    split.
    + constructor; [done|]. apply List.Forall_forall. intros y Hy. apply Hx. apply in_or_app. by left.
    + intros a b [<- | Ha] Hb; [apply Hx; apply in_or_app; by right|by apply H12].
Qed.

Lemma StronglySorted_snoc {A} (R : A -> A -> Prop) (l : list A) (a : A) :
  StronglySorted R l -> (forall x, In x l -> R x a) -> StronglySorted R (l ++ [a]).
Proof.
  induction l as [|x l IH]; simpl; intros H Ha.
  - repeat constructor.
  - apply StronglySorted_inv in H as [H Hx]. constructor.
    + apply IH; [done|]. intros y Hy. apply Ha. by right.
    + apply Forall_app. split; [done|]. constructor; [apply Ha; by left|constructor].
Qed.

Lemma StronglySorted_rev (l : list DbMessage) :
  StronglySorted newer_or_same l -> StronglySorted older_or_same (rev l).
Proof.
  induction l as [|x l IH]; simpl; intros H; [constructor|].
  apply StronglySorted_inv in H as [H Hx]. rewrite List.Forall_forall in Hx.
  apply StronglySorted_snoc; [by apply IH|].
  intros y Hy. apply in_rev in Hy. apply Hx in Hy. exact Hy.
Qed.

(** C8: the [get-previous-messages] step returns the converted rows [msgs]
    of the project: at most 5 of them (exactly [min 5 n] for a project with
    [n] messages), distinct rows of the project (together with the rows
    left out, [rest], they are a rearrangement of the project's rows),
    oldest first, none older than any project row left out, each turned
    into a text message whose role is "assistant" exactly for the
    ASSISTANT rows and "user" otherwise. *)
Theorem previous_messages_recent (db : list DbMessage) (projectId : string) :
  exists msgs,
    getPreviousMessages db projectId = map toAgentMessage msgs /\
    List.length msgs =
      Nat.min 5 (List.length (List.filter (fun m => String.eqb (msg_projectId m) projectId) db)) /\
    (forall m, In m msgs -> In m db /\ msg_projectId m = projectId) /\
    (exists rest,
       Permutation (List.filter (fun m => String.eqb (msg_projectId m) projectId) db)
                   (msgs ++ rest)%list /\
       (forall m m', In m rest -> In m' msgs -> msg_createdAt m <= msg_createdAt m')) /\
    StronglySorted older_or_same msgs /\
    (forall m m', In m db -> msg_projectId m = projectId -> ~ In m msgs -> In m' msgs ->
       msg_createdAt m <= msg_createdAt m') /\
    (forall m, In m msgs ->
       (message_role (toAgentMessage m) = Some RAssistant <-> msg_role m = ASSISTANT) /\
       (message_role (toAgentMessage m) = Some RUser <-> msg_role m <> ASSISTANT)).
Proof.
  set (flt := List.filter (fun m => String.eqb (msg_projectId m) projectId) db).
  set (sorted := sort_desc flt).
  assert (Hperm : Permutation sorted flt) by apply sort_desc_perm.
  assert (Hss : StronglySorted newer_or_same sorted) by apply sort_desc_sorted.
  assert (Hsplit := firstn_skipn 5 sorted).
  exists (rev (take 5 sorted)). split; [|split; [|split; [|split; [|split; [|split]]]]].
  - unfold getPreviousMessages, findMany_recent. by rewrite map_rev.
  - rewrite length_rev, length_firstn. by rewrite (Permutation_length Hperm).
  - intros m Hm. apply in_rev in Hm.
    assert (Hs : In m sorted) by (rewrite <- Hsplit; apply in_or_app; by left).
    apply (Permutation_in _ Hperm) in Hs. unfold flt in Hs.
    apply filter_In in Hs as [Hin Heq]. apply String.eqb_eq in Heq. done.
  - exists (drop 5 sorted). split.
    + rewrite <- Hperm. rewrite <- Hsplit at 1.
      apply Permutation_app_tail. apply Permutation_rev.
    + intros m m' Hm Hm'. apply in_rev in Hm'.
      rewrite <- Hsplit in Hss. apply StronglySorted_app_inv in Hss as [_ Hlt].
      exact (Hlt m' m Hm' Hm).
  - apply StronglySorted_rev. rewrite <- Hsplit in Hss.
    by apply StronglySorted_app_inv in Hss as [Hs _].
  - intros m m' Hdb Hp Hnot Hm'. apply in_rev in Hm'.
    assert (Hf : In m flt) by (unfold flt; apply filter_In; split; [done|by apply String.eqb_eq]).
    apply (Permutation_in _ (Permutation_sym Hperm)) in Hf.
    rewrite <- Hsplit in Hf, Hss. apply in_app_or in Hf as [Hf | Hf].
    + exfalso. apply Hnot. apply (proj1 (in_rev _ _)). exact Hf.
    + apply StronglySorted_app_inv in Hss as [_ Hlt]. exact (Hlt m' m Hm' Hf).
  - intros m _. unfold toAgentMessage, message_role.
    destruct (msg_role m); split; split; congruence.
Qed.

(** ** C9 *)

Lemma insert_asc_in (x p : Project) (l : list Project) :
  In x (insert_asc p l) <-> In x (p :: l).
Proof.
  induction l as [|y l IH]; simpl; [tauto|].
  destruct (Nat.leb (p_updatedAt p) (p_updatedAt y)); simpl; [tauto|].
  rewrite IH. simpl. tauto.
Qed.

Lemma fold_insert_asc_in (x : Project) (l : list Project) :
  In x (fold_right insert_asc [] l) <-> In x l.
Proof.
  induction l as [|y l IH]; simpl; [tauto|].
  rewrite insert_asc_in. simpl. rewrite IH. tauto.
Qed.

(** C9 (counterexample): for the empty id, which no project of the caller
    carries, [getOne] throws BAD_REQUEST (the zod check on [id]), not
    NOT_FOUND. *)
Lemma getOne_empty_id :
    getOne {| userId := "user_1"; has_pro := false |} "" {| w_projects := []; w_messages := []; w_events := [];
                   w_usage := ∅; w_usage_up := true; w_next := 0; w_clock := 0;
                   w_log := [] |} = Throw (TRPCError "BAD_REQUEST" "ID is required").
Proof. reflexivity. Qed.

(** C9 (amended): [getOne] only returns a project with the requested id
    owned by the caller; for an empty id it throws BAD_REQUEST, and for a
    non-empty id that the caller owns no project with it throws NOT_FOUND
    (in particular for another user's project); every project [getMany]
    returns is one of the caller's. *)
Theorem projects_owned_by_caller (c : Caller) (w : World) :
  (forall id p, getOne c id w = Ok p ->
     p_userId p = userId c /\ p_id p = id /\ In p (w_projects w)) /\
  (forall id, utf16_length id = 0 ->
     getOne c id w = Throw (TRPCError "BAD_REQUEST" "ID is required")) /\
  (forall id, (1 <= utf16_length id)%nat ->
     (forall p, In p (w_projects w) -> p_id p = id -> p_userId p <> userId c) ->
     getOne c id w = Throw (TRPCError "NOT_FOUND" "Project not found")) /\
  (forall p, In p (getMany c w) -> p_userId p = userId c /\ In p (w_projects w)).
Proof.
  split; [|split; [|split]].
  - intros id p. unfold getOne, findUnique_project.
    destruct (Nat.ltb (utf16_length id) 1); [discriminate|].
    destruct (List.find _ _) as [q|] eqn:Hf; [|discriminate].
    intros Heq. injection Heq as <-.
    apply find_some in Hf as [Hin Hb]. apply andb_true_iff in Hb as [Hid Hu].
    apply String.eqb_eq in Hid, Hu. done.
  - intros id H0. unfold getOne. by rewrite H0.
  - intros id Hlen Hnone. unfold getOne, findUnique_project.
    replace (Nat.ltb (utf16_length id) 1) with false by (symmetry; apply Nat.ltb_ge; exact Hlen).
    destruct (List.find _ _) as [q|] eqn:Hf; [|done].
    apply find_some in Hf as [Hin Hb]. apply andb_true_iff in Hb as [Hid Hu].
    apply String.eqb_eq in Hid, Hu. exfalso. by apply (Hnone q).
  - intros p Hp. unfold getMany in Hp. apply fold_insert_asc_in, filter_In in Hp as [Hin Hu].
    apply String.eqb_eq in Hu. done.
Qed.

(** ** C2 and C3: projects.create *)

Definition demo_caller : Caller := {| userId := "user_1"; has_pro := false |}.

Definition world_with_usage (used : nat) : World :=
  {| w_projects := []; w_messages := []; w_events := [];
     w_usage := {["user_1" := used]}; w_usage_up := true;
     w_next := 0; w_clock := 0; w_log := [] |}.

Definition demo_prompt : string := "Build a todo app".

(** C2 (counterexample): an authenticated free-tier caller who has used all
    5 credits sends a valid prompt, and [projects.create] creates no project
    and returns no project: it throws TOO_MANY_REQUESTS. *)
Lemma create_out_of_credits :
  fst (create (Some demo_caller) demo_prompt "happy-turtle" (world_with_usage 5)) =
    Throw (TRPCError "TOO_MANY_REQUESTS" "You have run out of credits") /\
  w_projects (snd (create (Some demo_caller) demo_prompt "happy-turtle" (world_with_usage 5))) = [] /\
  w_events (snd (create (Some demo_caller) demo_prompt "happy-turtle" (world_with_usage 5))) = [].
Proof. split; [|split]; vm_compute; reflexivity. Qed.

(** C2 (amended): for an authenticated caller with a prompt of 1 to 10000
    characters whose credit consumption succeeds (the usage store is up and
    one more credit stays within the plan's limit), [projects.create]
    consumes one credit, then creates one project owned by the caller with
    one initial message (the prompt, USER, RESULT), then sends one
    "code-agent/run" event with the prompt and the project's id, and returns
    that project. *)
Theorem create_success (c : Caller) (value name : string) (w : World) :
  (1 <= utf16_length value <= 10000)%nat ->
  w_usage_up w = true ->
  (default 0 (w_usage w !! userId c) + GENERATION_COST <= getUsageTracker_points c)%nat ->
  exists p w',
    create (Some c) value name w = (Ok p, w') /\
    p_userId p = userId c /\
    w_projects w' = (w_projects w ++ [p])%list /\
    (exists m, w_messages w' = (w_messages w ++ [m])%list /\
               msg_projectId m = p_id p /\ msg_content m = value /\
               msg_role m = USER /\ msg_type m = RESULT) /\
    w_events w' = (w_events w ++ [{| se_name := "code-agent/run";
                                     se_data := {| ev_value := value;
                                                   ev_projectId := p_id p |} |}])%list /\
    w_log w' = (w_log w ++ [OpConsume (userId c); OpCreateProject (p_id p);
                            OpSendEvent "code-agent/run"])%list /\
    w_usage w' = <[userId c := default 0 (w_usage w !! userId c) + GENERATION_COST]> (w_usage w).
Proof.
  intros [Hmin Hmax] Hup Hlim.
  unfold create, protected_input.
  apply Nat.leb_le in Hmin, Hmax. rewrite Hmin, Hmax. simpl.
  unfold consumeCredits, usage_consume, log_op. simpl. rewrite Hup.
  apply Nat.leb_le in Hlim. rewrite Hlim. simpl.
  eexists _, _. split; [reflexivity|]. simpl.
  split; [done|]. split; [done|]. split.
  - eexists. split; [reflexivity|]. done.
  - split; [done|]. split; [|done].
    by rewrite <- !app_assoc.
Qed.

Lemma create_success_witness :
  ((1 <= utf16_length demo_prompt <= 10000)%nat /\
   w_usage_up (world_with_usage 2) = true /\
   (default 0 (w_usage (world_with_usage 2) !! userId demo_caller) + GENERATION_COST
      <= getUsageTracker_points demo_caller)%nat) /\
  exists p w',
    create (Some demo_caller) demo_prompt "happy-turtle" (world_with_usage 2) = (Ok p, w') /\
    p_userId p = userId demo_caller /\
    w_projects w' = (w_projects (world_with_usage 2) ++ [p])%list /\
    (exists m, w_messages w' = (w_messages (world_with_usage 2) ++ [m])%list /\
               msg_projectId m = p_id p /\ msg_content m = demo_prompt /\
               msg_role m = USER /\ msg_type m = RESULT) /\
    w_events w' = (w_events (world_with_usage 2) ++
                   [{| se_name := "code-agent/run";
                       se_data := {| ev_value := demo_prompt; ev_projectId := p_id p |} |}])%list /\
    w_log w' = (w_log (world_with_usage 2) ++
                [OpConsume (userId demo_caller); OpCreateProject (p_id p);
                 OpSendEvent "code-agent/run"])%list /\
    w_usage w' = <[userId demo_caller := default 0 (w_usage (world_with_usage 2) !! userId demo_caller)
                                       + GENERATION_COST]> (w_usage (world_with_usage 2)).
Proof.
  assert (H1 : (1 <= utf16_length demo_prompt <= 10000)%nat) by (vm_compute; lia).
  assert (H2 : w_usage_up (world_with_usage 2) = true) by reflexivity.
  assert (H3 : (default 0 (w_usage (world_with_usage 2) !! userId demo_caller) + GENERATION_COST
                  <= getUsageTracker_points demo_caller)%nat) by (vm_compute; lia).
  split; [split; [exact H1|split; [exact H2|exact H3]]|].
  exact (create_success demo_caller demo_prompt "happy-turtle" (world_with_usage 2) H1 H2 H3).
Defined.

(** C3 (counterexample): a free-tier caller who has used all 5 credits is
    refused with TOO_MANY_REQUESTS, but the state is not unchanged: the
    limiter has already added the point, and the Usage row goes from 5 to
    6. *)
Lemma create_over_limit_counts_point :
  fst (create (Some demo_caller) demo_prompt "happy-turtle" (world_with_usage 5)) =
    Throw (TRPCError "TOO_MANY_REQUESTS" "You have run out of credits") /\
  w_usage (world_with_usage 5) !! "user_1" = Some 5 /\
  w_usage (snd (create (Some demo_caller) demo_prompt "happy-turtle" (world_with_usage 5)))
    !! "user_1" = Some 6.
Proof. split; [|split]; vm_compute; reflexivity. Qed.

(** C3 (amended): when the credit check of [projects.create] fails for an
    authenticated caller with a valid prompt (the caller has run out of
    credits, or the usage store fails with an Error), the procedure throws
    TOO_MANY_REQUESTS in the first case and BAD_REQUEST in the second, and
    writes no project row and no message row and sends no event; the only
    write is the Usage row, which the limiter raises by the cost even when
    it refuses (and leaves alone when the store fails). *)
Theorem create_quota_failure (c : Caller) (value name : string) (w : World) :
  (1 <= utf16_length value <= 10000)%nat ->
  w_usage_up w = false \/
  (getUsageTracker_points c < default 0 (w_usage w !! userId c) + GENERATION_COST)%nat ->
  exists code msg w',
    create (Some c) value name w = (Throw (TRPCError code msg), w') /\
    (code = "TOO_MANY_REQUESTS" <-> w_usage_up w = true) /\
    (code = "BAD_REQUEST" <-> w_usage_up w = false) /\
    w_projects w' = w_projects w /\
    w_messages w' = w_messages w /\
    w_events w' = w_events w /\
    w_usage w' = (if w_usage_up w
                  then <[userId c := default 0 (w_usage w !! userId c) + GENERATION_COST]>
                         (w_usage w)
                  else w_usage w).
Proof.
  intros [Hmin Hmax] Hfail.
  unfold create, protected_input.
  apply Nat.leb_le in Hmin, Hmax. rewrite Hmin, Hmax. simpl.
  unfold consumeCredits, usage_consume, log_op. simpl.
  destruct (w_usage_up w) eqn:Hup.
  - destruct Hfail as [Hf | Hlt]; [discriminate|].
    replace (Nat.leb (default 0 (w_usage w !! userId c) + GENERATION_COST)
                     (getUsageTracker_points c)) with false
      by (symmetry; apply Nat.leb_gt; exact Hlt).
    simpl. eexists _, _, _. split; [reflexivity|].
    repeat split; done.
  - simpl. eexists _, _, _. split; [reflexivity|].
    repeat split; done.
Qed.

Lemma create_quota_failure_witness :
  ((1 <= utf16_length demo_prompt <= 10000)%nat /\
   (w_usage_up (world_with_usage 5) = false \/
    (getUsageTracker_points demo_caller
       < default 0 (w_usage (world_with_usage 5) !! userId demo_caller) + GENERATION_COST)%nat)) /\
  exists code msg w',
    create (Some demo_caller) demo_prompt "happy-turtle" (world_with_usage 5) =
      (Throw (TRPCError code msg), w') /\
    (code = "TOO_MANY_REQUESTS" <-> w_usage_up (world_with_usage 5) = true) /\
    (code = "BAD_REQUEST" <-> w_usage_up (world_with_usage 5) = false) /\
    w_projects w' = w_projects (world_with_usage 5) /\
    w_messages w' = w_messages (world_with_usage 5) /\
    w_events w' = w_events (world_with_usage 5) /\
    w_usage w' = (if w_usage_up (world_with_usage 5)
                  then <[userId demo_caller := default 0 (w_usage (world_with_usage 5)
                                                           !! userId demo_caller)
                                               + GENERATION_COST]> (w_usage (world_with_usage 5))
                  else w_usage (world_with_usage 5)).
Proof.
  assert (H1 : (1 <= utf16_length demo_prompt <= 10000)%nat) by (vm_compute; lia).
  assert (H2 : w_usage_up (world_with_usage 5) = false \/
               (getUsageTracker_points demo_caller
                  < default 0 (w_usage (world_with_usage 5) !! userId demo_caller)
                    + GENERATION_COST)%nat) by (right; vm_compute; lia).
  split; [split; [exact H1|exact H2]|].
  exact (create_quota_failure demo_caller demo_prompt "happy-turtle" (world_with_usage 5) H1 H2).
Defined.

(** * Further properties of the pipeline *)

(** ** createOrUpdateFiles: failures, frame and composition *)

Lemma write_each_readonly (fs : list FileInput) :
  forall sb upd sb' upd' r,
  write_each sb upd fs = (sb', upd', r) ->
  sb_readonly sb' = sb_readonly sb /\ sb_alive sb' = sb_alive sb.
Proof.
  induction fs as [|f rest IH]; intros sb upd sb' upd' r Hw; simpl in Hw.
  - by injection Hw as <- <- <-.
  - unfold sandbox_write in Hw. case_bool_decide.
    + by injection Hw as <- <- <-.
    + apply IH in Hw as [-> ->]. done.
Qed.

Lemma write_each_app_ok (fs1 fs2 : list FileInput) :
  forall sb upd sb1 upd1,
  write_each sb upd fs1 = (sb1, upd1, None) ->
  write_each sb upd (fs1 ++ fs2)%list = write_each sb1 upd1 fs2.
Proof.
  induction fs1 as [|f rest IH]; intros sb upd sb1 upd1 Hw; simpl in *.
  - by injection Hw as <- <-.
  - unfold sandbox_write in *. case_bool_decide; [discriminate|]. by apply IH.
Qed.

Lemma write_each_writable (fs : list FileInput) :
  forall sb upd,
  Forall (fun g => path g ∉ sb_readonly sb) fs ->
  exists sb1 upd1, write_each sb upd fs = (sb1, upd1, None).
Proof.
  induction fs as [|f rest IH]; intros sb upd Hall; simpl.
  - by eexists _, _.
  - apply Forall_cons in Hall as [Hf Hrest].
    unfold sandbox_write. rewrite bool_decide_false by done.
    apply IH. exact Hrest.
Qed.

Lemma write_each_keeps_keys (fs : list FileInput) :
  forall sb upd sb' upd' r p,
  write_each sb upd fs = (sb', upd', r) ->
  is_Some (upd !! p) -> is_Some (upd' !! p).
Proof.
  induction fs as [|f rest IH]; intros sb upd sb' upd' r p Hw Hp; simpl in Hw.
  - by injection Hw as <- <- <-.
  - unfold sandbox_write in Hw. case_bool_decide.
    + by injection Hw as <- <- <-.
    + apply (IH _ _ _ _ _ p Hw).
      destruct (String.eqb_spec (path f) p) as [<- | Hne].
      * rewrite lookup_insert_eq. by eexists.
      * by rewrite lookup_insert_ne.
Qed.

(** When the sandbox write of a file fails, the files listed before it stay
    written in the sandbox, and nothing after the failing file is written;
    the step reports an error string, and the shared state the handler goes
    on with is the one it had before the call (its file map holds none of
    the files written). *)
Theorem createOrUpdateFiles_partial_failure (pre : list FileInput) (f : FileInput)
    (post : list FileInput) (sb : Sandbox) (st : AgentState) :
  sb_alive sb = true ->
  Forall (fun g => path g ∉ sb_readonly sb) pre ->
  path f ∈ sb_readonly sb ->
  exists sb' msg,
    createOrUpdateFiles (pre ++ f :: post)%list sb st = (sb', st, StepString msg) /\
    (forall p, sb_files sb' !! p =
       match new_content pre p with Some c => Some c | None => sb_files sb !! p end).
Proof.
  intros Halive Hpre Hf.
  destruct (write_each_writable pre sb (files st) Hpre) as (sb1 & upd1 & Hw).
  destruct (write_each_readonly _ _ _ _ _ _ Hw) as [Hro _].
  unfold createOrUpdateFiles, getSandbox. rewrite Halive.
  rewrite (write_each_app_ok pre (f :: post) _ _ _ _ Hw). simpl.
  unfold sandbox_write. rewrite Hro. rewrite bool_decide_true by done.
  eexists _, _. split; [reflexivity|].
  intros p; apply (write_each_ok pre _ _ _ _ Hw p).
Qed.

Definition demo_locked_sandbox : Sandbox :=
  {| sb_alive := true; sb_files := ∅; sb_readonly := ["package.json"] |}.

Definition demo_pre : list FileInput := [{| path := "app/page.tsx"; content := "v1" |}].
Definition demo_locked : FileInput := {| path := "package.json"; content := "{}" |}.
Definition demo_post : list FileInput := [{| path := "app/b.tsx"; content := "b" |}].

Lemma createOrUpdateFiles_partial_failure_witness :
  (sb_alive demo_locked_sandbox = true /\
   Forall (fun g => path g ∉ sb_readonly demo_locked_sandbox) demo_pre /\
   path demo_locked ∈ sb_readonly demo_locked_sandbox) /\
  exists sb' msg,
    createOrUpdateFiles (demo_pre ++ demo_locked :: demo_post)%list demo_locked_sandbox demo_state
      = (sb', demo_state, StepString msg) /\
    (forall p, sb_files sb' !! p =
       match new_content demo_pre p with
       | Some c => Some c | None => sb_files demo_locked_sandbox !! p end).
Proof.
  assert (H1 : sb_alive demo_locked_sandbox = true) by reflexivity.
  assert (H2 : Forall (fun g => path g ∉ sb_readonly demo_locked_sandbox) demo_pre)
    by (repeat constructor; simpl; set_solver).
  assert (H3 : path demo_locked ∈ sb_readonly demo_locked_sandbox) by (simpl; set_solver).
  split; [split; [exact H1|split; [exact H2|exact H3]]|].
  exact (createOrUpdateFiles_partial_failure demo_pre demo_locked demo_post
           demo_locked_sandbox demo_state H1 H2 H3).
Defined.

(** When the sandbox cannot be reached, [createOrUpdateFiles] writes
    nothing: the sandbox and the shared state are unchanged and the step
    reports an error string. *)
Theorem createOrUpdateFiles_unreachable (fs : list FileInput) (sb : Sandbox) (st : AgentState) :
  sb_alive sb = false ->
  exists msg, createOrUpdateFiles fs sb st = (sb, st, StepString msg).
Proof.
  intros Hdead. unfold createOrUpdateFiles, getSandbox. rewrite Hdead.
  eexists. simpl. by destruct st.
Qed.

Lemma createOrUpdateFiles_unreachable_witness :
  sb_alive {| sb_alive := false; sb_files := ∅; sb_readonly := [] |} = false /\
  exists msg, createOrUpdateFiles demo_files {| sb_alive := false; sb_files := ∅; sb_readonly := [] |}
                demo_state = ({| sb_alive := false; sb_files := ∅; sb_readonly := [] |}, demo_state,
                              StepString msg).
Proof.
  assert (H : sb_alive {| sb_alive := false; sb_files := ∅; sb_readonly := [] |} = false)
    by reflexivity.
  split; [exact H|]. exact (createOrUpdateFiles_unreachable demo_files _ demo_state H).
Defined.

(** Whatever its outcome, a [createOrUpdateFiles] call never removes a path
    from the shared file map and never touches the summary. *)
Theorem createOrUpdateFiles_keeps_paths (fs : list FileInput) (sb : Sandbox) (st : AgentState) :
  let st' := snd (fst (createOrUpdateFiles fs sb st)) in
  (forall p, is_Some (files st !! p) -> is_Some (files st' !! p)) /\
  summary st' = summary st.
Proof.
  unfold createOrUpdateFiles, getSandbox.
  destruct (sb_alive sb); simpl; [|done].
  destruct (write_each sb (files st) fs) as [[sb1 upd] r] eqn:Hw.
  split; [|by destruct r].
  intros p Hp. pose proof (write_each_keeps_keys fs _ _ _ _ _ p Hw Hp).
  by destruct r.
Qed.

(** Two successful calls in a row have the same effect on the sandbox and
    on the shared state as one successful call with both file lists. *)
Theorem createOrUpdateFiles_compose (fs1 fs2 : list FileInput) (sb sb1 sb2 : Sandbox)
    (st st1 st2 : AgentState) (m1 m2 : gmap string string) :
  createOrUpdateFiles fs1 sb st = (sb1, st1, StepObject m1) ->
  createOrUpdateFiles fs2 sb1 st1 = (sb2, st2, StepObject m2) ->
  createOrUpdateFiles (fs1 ++ fs2)%list sb st = (sb2, st2, StepObject m2).
Proof.
  unfold createOrUpdateFiles, getSandbox.
  destruct (sb_alive sb) eqn:Ha; [|discriminate].
  destruct (write_each sb (files st) fs1) as [[sb' upd] [e|]] eqn:Hw1; [discriminate|].
  intros H1. injection H1 as <- <- <-. simpl.
  destruct (write_each_readonly _ _ _ _ _ _ Hw1) as [_ Ha'].
  rewrite Ha'. rewrite Ha.
  rewrite (write_each_app_ok fs1 fs2 _ _ _ _ Hw1). simpl.
  destruct (write_each sb' upd fs2) as [[sb'' upd''] [e|]]; [discriminate|].
  intros H2. injection H2 as <- <- <-. reflexivity.
Qed.

Definition demo_files2 : list FileInput := [{| path := "app/page.tsx"; content := "v3" |}].

Lemma createOrUpdateFiles_compose_witness :
  createOrUpdateFiles demo_files demo_sandbox demo_state =
    (fst (fst demo_write), snd (fst demo_write), StepObject (files (snd (fst demo_write)))) /\
  createOrUpdateFiles demo_files2 (fst (fst demo_write)) (snd (fst demo_write)) =
    (fst (fst (createOrUpdateFiles demo_files2 (fst (fst demo_write)) (snd (fst demo_write)))),
     snd (fst (createOrUpdateFiles demo_files2 (fst (fst demo_write)) (snd (fst demo_write)))),
     StepObject (files (snd (fst (createOrUpdateFiles demo_files2 (fst (fst demo_write))
                                                      (snd (fst demo_write))))))) /\
  createOrUpdateFiles (demo_files ++ demo_files2)%list demo_sandbox demo_state =
    (fst (fst (createOrUpdateFiles demo_files2 (fst (fst demo_write)) (snd (fst demo_write)))),
     snd (fst (createOrUpdateFiles demo_files2 (fst (fst demo_write)) (snd (fst demo_write)))),
     StepObject (files (snd (fst (createOrUpdateFiles demo_files2 (fst (fst demo_write))
                                                      (snd (fst demo_write))))))).
Proof.
  assert (H1 : createOrUpdateFiles demo_files demo_sandbox demo_state =
    (fst (fst demo_write), snd (fst demo_write), StepObject (files (snd (fst demo_write)))))
    by (vm_compute; reflexivity).
  assert (H2 : createOrUpdateFiles demo_files2 (fst (fst demo_write)) (snd (fst demo_write)) =
    (fst (fst (createOrUpdateFiles demo_files2 (fst (fst demo_write)) (snd (fst demo_write)))),
     snd (fst (createOrUpdateFiles demo_files2 (fst (fst demo_write)) (snd (fst demo_write)))),
     StepObject (files (snd (fst (createOrUpdateFiles demo_files2 (fst (fst demo_write))
                                                      (snd (fst demo_write))))))))
    by (vm_compute; reflexivity).
  split; [exact H1|split; [exact H2|]].
  exact (createOrUpdateFiles_compose _ _ _ _ _ _ _ _ _ _ H1 H2).
Defined.

(** ** The readFiles tool *)

(** [sandbox.files.read] rejects when the file does not exist. *)
Definition sandbox_read (sb : Sandbox) (p : string) : js string :=
  match sb_files sb !! p with
  | Some c => Ok c
  | None => Throw (ErrorObj ("file not found: " ++ p))
  end.

(** An element [{ path: file, content }] of the [contents] array. *)
Record FileContent := { fc_path : string; fc_content : string }.

(** [for (const file of files) { const content = await
    sandbox.files.read(file); contents.push({ path: file, content }); }] *)
Fixpoint read_each (sb : Sandbox) (ps : list string) : js (list FileContent) :=
  match ps with
  | [] => Ok []
  | p :: rest =>
      let! c := sandbox_read sb p in
      let! cs := read_each sb rest in
      Ok ({| fc_path := p; fc_content := c |} :: cs)
  end.

(** What the [readFiles] step returns: [JSON.stringify(contents)], kept
    here as the array it serialises, or the ["Error: " + error] text. *)
Inductive ReadFilesOutput :=
| ReadJson (contents : list FileContent)
| ReadError (msg : string).

(** The [readFiles] handler. *)
Definition readFiles (ps : list string) (sb : Sandbox) : ReadFilesOutput :=
  match getSandbox sb with
  | Throw e => ReadError ("Error: " ++ error_to_string e)
  | Ok sb0 =>
      match read_each sb0 ps with
      | Ok contents => ReadJson contents
      | Throw e => ReadError ("Error: " ++ error_to_string e)
      end
  end.

(** On a reachable sandbox, [readFiles] returns every requested file with
    its content, in the requested order (repeats kept), when all of them
    exist, and an error text (no partial list) as soon as one is missing. *)
Theorem readFiles_spec (ps : list string) (sb : Sandbox) :
  sb_alive sb = true ->
  (Forall (fun p => is_Some (sb_files sb !! p)) ps ->
     readFiles ps sb =
       ReadJson (map (fun p => {| fc_path := p; fc_content := default "" (sb_files sb !! p) |}) ps)) /\
  ((exists p, In p ps /\ sb_files sb !! p = None) -> exists msg, readFiles ps sb = ReadError msg).
Proof.
  intros Halive. unfold readFiles, getSandbox. rewrite Halive. split.
  - intros Hall. enough (Hr : read_each sb ps =
      Ok (map (fun p => {| fc_path := p; fc_content := default "" (sb_files sb !! p) |}) ps))
      by (rewrite Hr; reflexivity).
    induction Hall as [|p ps [c Hc] Hps IH]; simpl; [done|].
    unfold sandbox_read. rewrite Hc. simpl. rewrite IH. reflexivity.
  - intros (p & Hin & Hnone).
    enough (Hr : exists e, read_each sb ps = Throw e)
      by (destruct Hr as [e ->]; eexists; reflexivity).
    induction ps as [|q ps IH]; [destruct Hin|].
    simpl. unfold sandbox_read. destruct Hin as [-> | Hin].
    + rewrite Hnone. simpl. by eexists.
    + destruct (sb_files sb !! q); simpl; [|by eexists].
      destruct (IH Hin) as [e ->]. simpl. by eexists.
Qed.

Lemma readFiles_spec_witness :
  sb_alive demo_sandbox = true /\
  ((Forall (fun p => is_Some (sb_files demo_sandbox !! p)) ["package.json"] ->
     readFiles ["package.json"] demo_sandbox =
       ReadJson (map (fun p => {| fc_path := p; fc_content := default "" (sb_files demo_sandbox !! p) |})
                     ["package.json"])) /\
   ((exists p, In p ["package.json"] /\ sb_files demo_sandbox !! p = None) ->
     exists msg, readFiles ["package.json"] demo_sandbox = ReadError msg)).
Proof.
  assert (H : sb_alive demo_sandbox = true) by reflexivity.
  split; [exact H|]. exact (readFiles_spec ["package.json"] demo_sandbox H).
Defined.

(** ** Message helpers *)

Lemma findLastIndex_lt {A} (p : A -> bool) (l : list A) (i : nat) :
  findLastIndex p l = Some i -> (i < List.length l)%nat.
Proof.
  revert i. induction l as [|x l IH]; intros i H; simpl in *; [discriminate|].
  destruct (findLastIndex p l) as [j|] eqn:Hj.
  - injection H as <-. specialize (IH j eq_refl). lia.
  - destruct (p x); [injection H as <-; lia|discriminate].
Qed.

Lemma findLastIndex_app_none {A} (p : A -> bool) (l post : list A) :
  forallb (fun x => negb (p x)) post = true ->
  findLastIndex p (l ++ post)%list = findLastIndex p l.
Proof.
  intros Hpost. induction l as [|x l IH]; simpl.
  - by apply findLastIndex_none.
  - by rewrite IH.
Qed.

(** [lastAgentTextMessageContent] finds nothing in an output without
    assistant messages, and messages appended after the last assistant
    message that are not assistant messages (user or system text, tool
    results) do not change what it finds. *)
Theorem lastAgentTextMessageContent_non_assistant (res : AgentResult) :
  (forallb (fun m => negb (is_assistant m)) (output res) = true ->
     lastAgentTextMessageContent res = None) /\
  (forall post, forallb (fun m => negb (is_assistant m)) post = true ->
     lastAgentTextMessageContent {| output := (output res ++ post)%list |} =
     lastAgentTextMessageContent res).
Proof.
  unfold lastAgentTextMessageContent. split.
  - intros H. by rewrite findLastIndex_none.
  - intros post Hpost. simpl. rewrite findLastIndex_app_none by done.
    destruct (findLastIndex is_assistant (output res)) as [i|] eqn:Hi; [|done].
    apply findLastIndex_lt in Hi. by rewrite lookup_app_l.
Qed.

(** [parseAgentOutput] looks only at the first message; a first message
    that is not a text message gives "Fragment"; and for array content the
    parts' text is lost: each part becomes "[object Object]". *)
Theorem parseAgentOutput_first_message :
  (forall m rest, parseAgentOutput (m :: rest) = parseAgentOutput [m]) /\
  (forall tools rest, parseAgentOutput (ToolCallMessage tools :: rest) = Ok "Fragment") /\
  (forall tool c rest, parseAgentOutput (ToolResultMessage tool c :: rest) = Ok "Fragment") /\
  (forall r parts,
     parseAgentOutput [TextMessage r (CArr parts)] =
       Ok (join_empty (repeat "[object Object]" (List.length parts)))).
Proof.
  split; [|split; [|split]]; try done.
  intros r parts. unfold parseAgentOutput. simpl. do 2 f_equal.
  induction parts as [|x parts IH]; simpl; [done|]. by rewrite IH.
Qed.

(** ** The agent loop and the run's persisted message *)

Lemma network_loop_exact (f : AgentState -> AgentState) (n : nat) :
  forall st k, (k <= n)%nat ->
  (forall i, (i < k)%nat -> summary (Nat.iter i f st) = "") ->
  k = n \/ summary (Nat.iter k f st) <> "" ->
  network_loop f n st = (Nat.iter k f st, k).
Proof.
  induction n as [|n IH]; intros st k Hk Hpre Hend.
  - assert (k = 0%nat) as -> by lia. reflexivity.
  - simpl. destruct k as [|k].
    + destruct Hend as [Hend | Hend]; [discriminate|]. simpl in Hend.
      unfold router. apply truthy_true_iff in Hend. by rewrite Hend.
    + pose proof (Hpre 0%nat ltac:(lia)) as H0. simpl in H0.
      unfold router. rewrite H0. simpl.
      rewrite (IH (f st) k).
      * by rewrite <- Nat.iter_succ_r.
      * lia.
      * intros i Hi. rewrite <- Nat.iter_succ_r. apply Hpre. lia.
      * rewrite <- Nat.iter_succ_r. destruct Hend as [Hend | Hend]; [left; lia|by right].
Qed.

(** If the summary is still empty before each of the first [k] coding-agent
    calls, and either [k] is 15 or the [k]-th call leaves a summary, the
    network makes exactly [k] calls and ends in the state they produce. *)
Theorem network_run_exact_calls (agent : AgentState -> AgentState) (st : AgentState) (k : nat) :
  (k <= 15)%nat ->
  (forall i, (i < k)%nat -> summary (Nat.iter i agent st) = "") ->
  k = 15%nat \/ summary (Nat.iter k agent st) <> "" ->
  network_run agent st = (Nat.iter k agent st, k).
Proof. intros. by apply network_loop_exact. Qed.

(** An agent that leaves a summary on its second call. *)
Definition summary_on_second_call (st : AgentState) : AgentState :=
  if String.eqb (summary st) "" && Nat.eqb (size (files st)) 1
  then set_summary "<task_summary>done</task_summary>" st
  else set_files (<["app/page.tsx" := "page"]> (files st)) st.

Lemma network_run_exact_calls_witness :
  ((2 <= 15)%nat /\
   (forall i, (i < 2)%nat -> summary (Nat.iter i summary_on_second_call initial_state) = "") /\
   (2%nat = 15%nat \/ summary (Nat.iter 2 summary_on_second_call initial_state) <> "")) /\
  network_run summary_on_second_call initial_state =
    (Nat.iter 2 summary_on_second_call initial_state, 2%nat).
Proof.
  assert (H1 : (2 <= 15)%nat) by lia.
  assert (H2 : forall i, (i < 2)%nat -> summary (Nat.iter i summary_on_second_call initial_state) = "").
  { intros i Hi. destruct i as [|[|i]]; [reflexivity|vm_compute; reflexivity|lia]. }
  assert (H3 : 2%nat = 15%nat \/ summary (Nat.iter 2 summary_on_second_call initial_state) <> "").
  { right. vm_compute. discriminate. }
  split; [split; [exact H1|split; [exact H2|exact H3]]|].
  exact (network_run_exact_calls summary_on_second_call initial_state 2 H1 H2 H3).
Defined.

Definition is_create (e : Effect) : bool :=
  match e with CreateMessage _ => true | _ => false end.

Lemma save_result_props (pid : string) (isError : bool) (r t : list Message) (url : string)
    (fs : gmap string string) (m : MessageCreate) :
  save_result pid isError r t url fs = Ok m ->
  mc_projectId m = pid /\ mc_role m = ASSISTANT /\ (mc_type m = ERROR <-> mc_fragment m = None).
Proof.
  unfold save_result. destruct isError.
  - intros H. injection H as <-. simpl. tauto.
  - destruct (parseAgentOutput r) as [c|e]; simpl; [|discriminate].
    destruct (parseAgentOutput t) as [ti|e]; simpl; [|discriminate].
    intros H. injection H as <-. simpl. split; [done|split; [done|split; discriminate]].
Qed.

(** A run persists at most one message; it belongs to the event's
    project, has role ASSISTANT, and carries a fragment exactly when it is
    not an ERROR message; and the run completes without exception exactly
    when it persists a message. *)
Theorem codeAgentFunction_persisted_message (env : Env) (ev : CodeAgentEvent) :
  (List.length (List.filter is_create (fst (codeAgentFunction env ev))) <= 1)%nat /\
  (forall m, In (CreateMessage m) (fst (codeAgentFunction env ev)) ->
     mc_projectId m = ev_projectId ev /\ mc_role m = ASSISTANT /\
     (mc_type m = ERROR <-> mc_fragment m = None)) /\
  (snd (codeAgentFunction env ev) = Ok tt <->
     exists m, In (CreateMessage m) (fst (codeAgentFunction env ev))).
Proof.
  unfold codeAgentFunction.
  destruct (network_run (agent_run env) initial_state) as [fin k]. simpl.
  destruct (save_result _ _ _ _ _ _) as [m|e] eqn:Hs; simpl.
  - split; [simpl; lia|split].
    + intros m' Hin. repeat (destruct Hin as [Hin|Hin]; [discriminate|]).
      destruct Hin as [Hin|[]]. injection Hin as <-. exact (save_result_props _ _ _ _ _ _ _ Hs).
    + split; [intros _; exists m; simpl; tauto|done].
  - split; [simpl; lia|split].
    + intros m' Hin. repeat (destruct Hin as [Hin|Hin]; [discriminate|]). destruct Hin.
    + split; [discriminate|]. intros [m' Hin].
      repeat (destruct Hin as [Hin|Hin]; [discriminate|]). destruct Hin.
Qed.

(** ** The projects router *)

Definition updated_le (a b : Project) : Prop := p_updatedAt a <= p_updatedAt b.

Lemma insert_asc_perm (p : Project) (l : list Project) :
  Permutation (insert_asc p l) (p :: l).
Proof.
  induction l as [|x l IH]; simpl; [done|].
  destruct (Nat.leb (p_updatedAt p) (p_updatedAt x)); [done|].
  rewrite IH. apply perm_swap.
Qed.

Lemma insert_asc_sorted (p : Project) (l : list Project) :
  Sorted updated_le l -> Sorted updated_le (insert_asc p l).
Proof.
  induction 1 as [|x l Hl IH Hhd]; simpl.
  - repeat constructor.
  - destruct (Nat.leb (p_updatedAt p) (p_updatedAt x)) eqn:Hle.
    + apply Nat.leb_le in Hle. constructor; [by constructor|]. by constructor.
    + apply Nat.leb_gt in Hle. constructor; [exact IH|].
      destruct l as [|y l]; simpl.
      * constructor. unfold updated_le. lia.
      * inversion Hhd; subst.
        destruct (Nat.leb (p_updatedAt p) (p_updatedAt y)); constructor;
          unfold updated_le in *; lia.
Qed.

(** [getMany] returns exactly the caller's projects (each as often as it
    is stored), ordered by [updatedAt] ascending. *)
Theorem getMany_owned_sorted (c : Caller) (w : World) :
  Permutation (getMany c w)
              (List.filter (fun p => String.eqb (p_userId p) (userId c)) (w_projects w)) /\
  StronglySorted updated_le (getMany c w).
Proof.
  unfold getMany. split.
  - induction (List.filter _ _) as [|x l IH]; simpl; [done|].
    rewrite insert_asc_perm. by apply perm_skip.
  - apply Sorted_StronglySorted; [intros a b d; unfold updated_le; lia|].
    induction (List.filter _ _) as [|x l IH]; simpl; [constructor|].
    by apply insert_asc_sorted.
Qed.

(** With project ids unique, [getOne] returns the caller's own project
    with the requested id, when that id is not empty. *)
Theorem getOne_finds_own (c : Caller) (w : World) (p : Project) :
  NoDup (map p_id (w_projects w)) ->
  In p (w_projects w) -> p_userId p = userId c ->
  (1 <= utf16_length (p_id p))%nat ->
  getOne c (p_id p) w = Ok p.
Proof.
  intros Hnd Hin Hown Hlen. unfold getOne, findUnique_project.
  replace (Nat.ltb (utf16_length (p_id p)) 1) with false
    by (symmetry; apply Nat.ltb_ge; exact Hlen).
  destruct (List.find _ _) as [q|] eqn:Hf.
  - apply find_some in Hf as [Hq Hb]. apply andb_true_iff in Hb as [Hid _].
    apply String.eqb_eq in Hid. f_equal.
    induction (w_projects w) as [|x l IH]; [destruct Hin|].
    simpl in Hnd. apply NoDup_cons in Hnd as [Hx Hnd].
    destruct Hin as [-> | Hin]; destruct Hq as [-> | Hq]; try done.
    + exfalso. apply Hx. rewrite <- Hid. apply list_elem_of_In, in_map. exact Hq.
    + exfalso. apply Hx. rewrite Hid. apply list_elem_of_In, in_map. exact Hin.
    + by apply IH.
  - exfalso. apply (find_none _ _ Hf) in Hin. simpl in Hin.
    rewrite String.eqb_refl, Hown, String.eqb_refl in Hin. discriminate.
Qed.

Definition demo_project (id owner : string) : Project :=
  {| p_id := id; p_userId := owner; p_name := "happy-turtle"; p_updatedAt := 0 |}.

Definition world_with_projects : World :=
  {| w_projects := [demo_project "p1" "user_2"; demo_project "p2" "user_1"];
     w_messages := []; w_events := []; w_usage := ∅; w_usage_up := true;
     w_next := 3; w_clock := 1; w_log := [] |}.

Lemma getOne_finds_own_witness :
  (NoDup (map p_id (w_projects world_with_projects)) /\
   In (demo_project "p2" "user_1") (w_projects world_with_projects) /\
   p_userId (demo_project "p2" "user_1") = userId demo_caller /\
   (1 <= utf16_length (p_id (demo_project "p2" "user_1")))%nat) /\
  getOne demo_caller (p_id (demo_project "p2" "user_1")) world_with_projects =
    Ok (demo_project "p2" "user_1").
Proof.
  assert (H1 : NoDup (map p_id (w_projects world_with_projects))).
  { simpl. repeat constructor; set_solver. }
  assert (H2 : In (demo_project "p2" "user_1") (w_projects world_with_projects))
    by (simpl; tauto).
  assert (H3 : p_userId (demo_project "p2" "user_1") = userId demo_caller) by reflexivity.
  assert (H4 : (1 <= utf16_length (p_id (demo_project "p2" "user_1")))%nat)
    by (vm_compute; lia).
  split; [split; [exact H1|split; [exact H2|split; [exact H3|exact H4]]]|].
  exact (getOne_finds_own demo_caller world_with_projects _ H1 H2 H3 H4).
Defined.

(** A [projects.create] call from an unauthenticated caller, or with an
    empty prompt or one longer than 10000 UTF-16 code units (the JS string
    length zod checks), is rejected before
    anything happens: no credit is consumed and nothing is written or
    sent. *)
Theorem create_rejected_unchanged (caller : option Caller) (value name : string) (w : World) :
  caller = None \/ ~ (1 <= utf16_length value <= 10000)%nat ->
  exists code msg,
    create caller value name w = (Throw (TRPCError code msg), w) /\
    (code = "UNAUTHORIZED" <-> caller = None).
Proof.
  intros Hrej. unfold create, protected_input.
  destruct caller as [c|].
  - destruct Hrej as [Hrej | Hlen]; [discriminate|].
    destruct (Nat.leb 1 (utf16_length value)) eqn:H1;
    destruct (Nat.leb (utf16_length value) 10000) eqn:H2; simpl.
    + exfalso. apply Nat.leb_le in H1, H2. lia.
    + eexists _, _. split; [reflexivity|]. split; discriminate.
    + eexists _, _. split; [reflexivity|]. split; discriminate.
    + eexists _, _. split; [reflexivity|]. split; discriminate.
  - eexists _, _. split; [reflexivity|]. done.
Qed.

Lemma create_rejected_unchanged_witness :
  (Some demo_caller = None \/ ~ (1 <= utf16_length "" <= 10000)%nat) /\
  exists code msg,
    create (Some demo_caller) "" "happy-turtle" (world_with_usage 0) =
      (Throw (TRPCError code msg), world_with_usage 0) /\
    (code = "UNAUTHORIZED" <-> Some demo_caller = None).
Proof.
  assert (H : Some demo_caller = None \/ ~ (1 <= utf16_length "" <= 10000)%nat)
    by (right; simpl; lia).
  split; [exact H|]. exact (create_rejected_unchanged (Some demo_caller) "" "happy-turtle" _ H).
Defined.

(** ** Credits across many calls *)

Definition used_credits (c : Caller) (w : World) : nat := default 0 (w_usage w !! userId c).

Definition is_ok {A} (r : js A) : bool := match r with Ok _ => true | Throw _ => false end.

(** A caller's [projects.create] calls, one after the other. *)
Fixpoint create_all (c : Caller) (reqs : list (string * string)) (w : World)
    : list (js Project) * World :=
  match reqs with
  | [] => ([], w)
  | (value, name) :: rest =>
      let '(r, w1) := create (Some c) value name w in
      let '(rs, w2) := create_all c rest w1 in
      (r :: rs, w2)
  end.

Lemma create_used_credits (c : Caller) (value name : string) (w : World) :
  (used_credits c w <= used_credits c (snd (create (Some c) value name w)))%nat /\
  (is_ok (fst (create (Some c) value name w)) = true ->
     used_credits c (snd (create (Some c) value name w)) = S (used_credits c w) /\
     (used_credits c (snd (create (Some c) value name w)) <= getUsageTracker_points c)%nat).
Proof.
  unfold create, protected_input.
  destruct (Nat.leb 1 (utf16_length value) && Nat.leb (utf16_length value) 10000); simpl;
    [|split; [lia|discriminate]].
  unfold consumeCredits, usage_consume, log_op, used_credits. simpl.
  destruct (w_usage_up w); simpl; [|split; [lia|discriminate]].
  destruct (Nat.leb (default 0 (w_usage w !! userId c) + GENERATION_COST)
                    (getUsageTracker_points c)) eqn:Hle; simpl.
  - rewrite lookup_insert_eq. simpl. unfold GENERATION_COST in *.
    apply Nat.leb_le in Hle. split; [lia|intros _; split; lia].
  - rewrite lookup_insert_eq. simpl. unfold GENERATION_COST.
    split; [lia|discriminate].
Qed.

(** In any series of [projects.create] calls a caller makes one after the
    other (each finishing before the next starts) in one usage window, at
    most as many succeed as the credits the caller's plan leaves (5 for the
    free plan, 100 for pro, minus those already used). *)
Theorem create_all_credit_bound (c : Caller) (reqs : list (string * string)) (w : World) :
  (List.length (List.filter is_ok (fst (create_all c reqs w)))
     <= getUsageTracker_points c - used_credits c w)%nat.
Proof.
  revert w. induction reqs as [|[value name] rest IH]; intros w; simpl; [lia|].
  destruct (create_used_credits c value name w) as [Hmono Hok].
  destruct (create (Some c) value name w) as [r w1] eqn:Hc. simpl in *.
  destruct (create_all c rest w1) as [rs w2] eqn:Hrest. simpl.
  specialize (IH w1). rewrite Hrest in IH. simpl in IH.
  destruct r as [p|e]; simpl.
  - destruct (Hok eq_refl) as [Hs Hle]. lia.
  - lia.
Qed.

(** ** get-previous-messages *)

(** Messages of other projects never influence the history a run loads. *)
Theorem getPreviousMessages_other_projects (db others : list DbMessage) (projectId : string) :
  Forall (fun m => msg_projectId m <> projectId) others ->
  getPreviousMessages (db ++ others)%list projectId = getPreviousMessages db projectId.
Proof.
  intros Hoth. unfold getPreviousMessages, findMany_recent.
  rewrite List.filter_app.
  replace (List.filter (fun m => String.eqb (msg_projectId m) projectId) others) with (@nil DbMessage).
  - by rewrite app_nil_r.
  - induction Hoth as [|m l Hm Hl IH]; simpl; [done|].
    destruct (String.eqb_spec (msg_projectId m) projectId); [contradiction|exact IH].
Qed.

Definition demo_msg (id : nat) (pid : string) (t : nat) : DbMessage :=
  {| msg_id := id; msg_projectId := pid; msg_content := "hi"; msg_role := USER;
     msg_type := RESULT; msg_createdAt := t |}.

Lemma getPreviousMessages_other_projects_witness :
  Forall (fun m => msg_projectId m <> "p1") [demo_msg 2 "p2" 5] /\
  getPreviousMessages ([demo_msg 1 "p1" 3] ++ [demo_msg 2 "p2" 5])%list "p1" =
    getPreviousMessages [demo_msg 1 "p1" 3] "p1".
Proof.
  assert (H : Forall (fun m => msg_projectId m <> "p1") [demo_msg 2 "p2" 5])
    by (repeat constructor; simpl; discriminate).
  split; [exact H|]. exact (getPreviousMessages_other_projects _ _ "p1" H).
Defined.
